(** * Client-side router for clean URLs (assets/js/router.js)

    A shallow embedding of the [Router] class and the properties of its
    path mapping, link classification, content loader and history handling.

    Strings are [string] (sequences of 8-bit characters standing for the
    code units of a JavaScript string), the objects used as maps are
    [gmap]s, the class list of the body is a [gset], and the effectful
    methods run in a small state-and-exception monad in which a thrown
    exception keeps the mutations made before it. *)

From Stdlib Require Import String Ascii Bool Arith Lia List.
From stdpp Require Import base option gmap strings.
Import ListNotations.

Local Open Scope string_scope.

(** ** String methods used by the router *)

Module JS.

(** [s.startsWith(p)] *)
Fixpoint startsWith (p s : string) : bool :=
  match p, s with
  | EmptyString, _ => true
  | String _ _, EmptyString => false
  | String a p', String b s' => Ascii.eqb a b && startsWith p' s'
  end.

(** [s.includes(p)] *)
Fixpoint includes (p s : string) : bool :=
  startsWith p s ||
  match s with
  | EmptyString => false
  | String _ s' => includes p s'
  end.

(** [s.slice(n)] for a non-negative [n] *)
Fixpoint slice (n : nat) (s : string) : string :=
  match n, s with
  | O, _ => s
  | S _, EmptyString => EmptyString
  | S n', String _ s' => slice n' s'
  end.

(** The character class [[?#]] of the regular expression in [pathToHtmlFile]. *)
Definition isQueryOrFragmentMark (c : ascii) : bool :=
  Ascii.eqb c "?"%char || Ascii.eqb c "#"%char.

(** [s.split(/[?#]/)[0]]: the part of [s] before its first [?] or [#]
    (the whole of [s] when it has neither; [split] never returns an empty
    array, so index 0 always exists). *)
Fixpoint splitFirst (s : string) : string :=
  match s with
  | EmptyString => EmptyString
  | String c s' =>
      if isQueryOrFragmentMark c then EmptyString else String c (splitFirst s')
  end.

(** [s.replace(p, r)] with a string pattern: only the leftmost occurrence of
    [p] is replaced ([r] is used literally; the router passes the empty
    string). *)
Fixpoint replace (p r s : string) : string :=
  if startsWith p s then r +:+ slice (String.length p) s
  else match s with
       | EmptyString => EmptyString
       | String c s' => String c (replace p r s')
       end.

(** Truthiness of a string value: every string but the empty one. *)
Definition truthy (s : string) : bool :=
  match s with EmptyString => false | String _ _ => true end.

(** [v || d] where [v] is a string or [undefined]/[null]. *)
Definition orElse (v : option string) (d : string) : string :=
  match v with
  | Some s => if truthy s then s else d
  | None => d
  end.

End JS.

(** ** Path to file mapping *)

(** [Router.pathToHtmlFile] *)
Definition pathToHtmlFile (path : string) : string :=
  let cleanPath := if JS.startsWith "/" path then JS.slice 1 path else path in
  if (cleanPath =? "")%string || (cleanPath =? "/")%string then "index.html"
  else
    let basePath := JS.splitFirst cleanPath in
    basePath +:+ ".html".

(** The mapping as the specification words it: strip a leading slash, target
    [index.html] when the remainder is empty, otherwise strip the query or
    fragment suffix and append [.html]. *)
Definition pathToHtmlFile_as_specified (path : string) : string :=
  let rest := if JS.startsWith "/" path then JS.slice 1 path else path in
  if (rest =? "")%string then "index.html"
  else JS.splitFirst rest +:+ ".html".

(** A string holds neither [?] nor [#]. *)
Fixpoint noQueryOrFragmentMark (s : string) : bool :=
  match s with
  | EmptyString => true
  | String c s' => negb (JS.isQueryOrFragmentMark c) && noQueryOrFragmentMark s'
  end.

(** A string is empty or begins with [?] or [#]: a query/fragment suffix. *)
Definition isQueryOrFragmentSuffix (s : string) : bool :=
  match s with
  | EmptyString => true
  | String c _ => JS.isQueryOrFragmentMark c
  end.

(** ** The browser objects the router touches *)

(** A DOM element, as far as the router reads or writes it: its attributes
    and the properties [href], [content], [innerHTML] and [textContent]. *)
Record Element := mkElement {
  attributes : gmap string string;
  href : string;
  content : string;
  innerHTML : string;
  textContent : string
}.

(** [el.getAttribute(name)] *)
Definition getAttribute (name : string) (el : Element) : option string :=
  attributes el !! name.

(** [el.href = v], [el.content = v] and [el.innerHTML = v] *)
Definition set_href (v : string) (el : Element) : Element :=
  mkElement (<["href" := v]> (attributes el)) v (content el) (innerHTML el)
            (textContent el).

Definition set_content (v : string) (el : Element) : Element :=
  mkElement (<["content" := v]> (attributes el)) (href el) v (innerHTML el)
            (textContent el).

Definition set_innerHTML (v : string) (el : Element) : Element :=
  mkElement (attributes el) (href el) (content el) v (textContent el).

(** A document is seen through [querySelector]: the finite map from a selector
    to the element it selects.  The four elements the router selects (content
    container, title, canonical link, Open-Graph URL meta) are taken to be
    distinct nodes, none nested in another. *)
Definition querySelector (sel : string) (doc : gmap string Element)
  : option Element := doc !! sel.

(** The double quote character, for selectors with a quoted attribute value. *)
Definition dq : string := String "034"%char EmptyString.

Definition titleSelector : string := "title".
Definition canonicalSelector : string :=
  Eval cbv in "link[rel=" +:+ dq +:+ "canonical" +:+ dq +:+ "]".
Definition ogUrlSelector : string :=
  Eval cbv in "meta[property=" +:+ dq +:+ "og:url" +:+ dq +:+ "]".

(** A parsed URL: the two components the router depends on. *)
Record URL := mkURL { url_origin : string; pathname : string }.

(** The outcome of [fetch(file)]: the promise rejects, or it resolves to a
    response with a status and a body ([None] when reading the body fails). *)
Inductive FetchOutcome :=
| NetworkError
| Response (status : nat) (body : option string).

(** [response.ok]: the status is in the range 200-299. *)
Definition ok (status : nat) : bool :=
  ((200 <=? status) && (status <=? 299))%nat.

(** The global [$] with the plugins registered on [$.fn]. *)
Record JQuery := mkJQuery { fn_scrolly : bool; fn_dropotron : bool }.

(** What the router takes from its surroundings and never changes: the origin
    of the page, the network, the HTML parser, the URL parser, and the
    optional globals [$] and [browser] (with its [mobile] flag). *)
Record Platform := mkPlatform {
  location_origin : string;
  fetch : string -> FetchOutcome;
  parseFromString : string -> gmap string Element;
  newURL : string -> option URL;
  jQuery : option JQuery;
  browser : option bool
}.

(** [ROUTER_CONFIG] *)
Record RouterConfig := mkRouterConfig {
  baseUrl : string;
  contentSelector : string;
  loadingClass : string
}.

Definition ROUTER_CONFIG (env : Platform) : RouterConfig :=
  {| baseUrl := location_origin env;
     contentSelector := "#page-wrapper";
     loadingClass := "is-loading" |}.

(** An entry pushed with [history.pushState(state, '', url)]; the state
    object has the one property [path]. *)
Record HistoryEntry := mkHistoryEntry { state_path : string; entry_url : string }.

Inductive JSError :=
| Error (message : string)
| TypeError
| ReferenceError
| SecurityError.

Inductive PluginCall :=
| Scrolly
| Dropotron (expandMode : string).

(** The mutable state: the router's recorded path, and the parts of the
    window it reads or writes.  [requests], [pushed], [console] and
    [plugin_calls] log the calls to [fetch], [history.pushState],
    [console.error] and the plugins, oldest first; [location_href] is the
    last value assigned to [window.location.href], if any. *)
Record State := mkState {
  currentPath : string;
  document_title : string;
  document_elements : gmap string Element;
  body_classList : gset string;
  location_pathname : string;
  location_href : option string;
  pushed : list HistoryEntry;
  requests : list string;
  scroll_position : nat * nat;
  console : list JSError;
  plugin_calls : list PluginCall
}.

Definition with_currentPath (v : string) (st : State) : State :=
  mkState v (document_title st) (document_elements st) (body_classList st)
    (location_pathname st) (location_href st) (pushed st) (requests st)
    (scroll_position st) (console st) (plugin_calls st).

Definition with_document_title (v : string) (st : State) : State :=
  mkState (currentPath st) v (document_elements st) (body_classList st)
    (location_pathname st) (location_href st) (pushed st) (requests st)
    (scroll_position st) (console st) (plugin_calls st).

Definition with_document_elements (v : gmap string Element) (st : State) : State :=
  mkState (currentPath st) (document_title st) v (body_classList st)
    (location_pathname st) (location_href st) (pushed st) (requests st)
    (scroll_position st) (console st) (plugin_calls st).

Definition with_body_classList (v : gset string) (st : State) : State :=
  mkState (currentPath st) (document_title st) (document_elements st) v
    (location_pathname st) (location_href st) (pushed st) (requests st)
    (scroll_position st) (console st) (plugin_calls st).

Definition with_location_href (v : option string) (st : State) : State :=
  mkState (currentPath st) (document_title st) (document_elements st)
    (body_classList st) (location_pathname st) v (pushed st) (requests st)
    (scroll_position st) (console st) (plugin_calls st).

(** A push writes the log of entries and the path the location shows. *)
Definition with_pushed (v : list HistoryEntry) (p : string) (st : State) : State :=
  mkState (currentPath st) (document_title st) (document_elements st)
    (body_classList st) p (location_href st) v (requests st)
    (scroll_position st) (console st) (plugin_calls st).

Definition with_requests (v : list string) (st : State) : State :=
  mkState (currentPath st) (document_title st) (document_elements st)
    (body_classList st) (location_pathname st) (location_href st) (pushed st) v
    (scroll_position st) (console st) (plugin_calls st).

Definition with_scroll_position (v : nat * nat) (st : State) : State :=
  mkState (currentPath st) (document_title st) (document_elements st)
    (body_classList st) (location_pathname st) (location_href st) (pushed st)
    (requests st) v (console st) (plugin_calls st).

Definition with_console (v : list JSError) (st : State) : State :=
  mkState (currentPath st) (document_title st) (document_elements st)
    (body_classList st) (location_pathname st) (location_href st) (pushed st)
    (requests st) (scroll_position st) v (plugin_calls st).

Definition with_plugin_calls (v : list PluginCall) (st : State) : State :=
  mkState (currentPath st) (document_title st) (document_elements st)
    (body_classList st) (location_pathname st) (location_href st) (pushed st)
    (requests st) (scroll_position st) (console st) v.

(** ** Effects: state with exceptions that keep the mutations made so far *)

Inductive Completion (A : Type) :=
| Normal (a : A)
| Throw (e : JSError).
Arguments Normal {A} a.
Arguments Throw {A} e.

Definition Eff (A : Type) : Type := State -> Completion A * State.

Definition ret {A} (a : A) : Eff A := fun st => (Normal a, st).

Definition throw {A} (e : JSError) : Eff A := fun st => (Throw e, st).

Definition bind {A B} (c : Eff A) (k : A -> Eff B) : Eff B := fun st =>
  match c st with
  | (Normal a, st') => k a st'
  | (Throw e, st') => (Throw e, st')
  end.

Definition modify (f : State -> State) : Eff unit := fun st => (Normal tt, f st).

Definition when (b : bool) (c : Eff unit) : Eff unit := if b then c else ret tt.

(** [try { body } catch (e) { handler(e) } finally { cleanup }] *)
Definition tryCatchFinally (body : Eff unit) (handler : JSError -> Eff unit)
    (cleanup : Eff unit) : Eff unit := fun st =>
  let '(r1, st1) := body st in
  let '(r2, st2) := match r1 with
                    | Normal _ => (Normal tt, st1)
                    | Throw e => handler e st1
                    end in
  let '(r3, st3) := cleanup st2 in
  match r3 with
  | Normal _ => (r2, st3)
  | Throw e => (Throw e, st3)
  end.

Declare Scope eff_scope.
Delimit Scope eff_scope with eff.
Notation "x <- c ;; k" := (bind c (fun x => k))
  (at level 100, c at next level, k at level 200, right associativity,
   only parsing) : eff_scope.
Notation "c ;; k" := (bind c (fun _ => k))
  (at level 100, k at level 200, right associativity, only parsing) : eff_scope.

Local Open Scope eff_scope.

(** ** The router *)

(** [Router.extractContent] *)
Definition extractContent (env : Platform) (html : string) : string :=
  let doc := parseFromString env html in
  match querySelector (contentSelector (ROUTER_CONFIG env)) doc with
  | Some content => innerHTML content
  | None => html
  end.

(** [Router.extractTitle]; [None] is [null]. *)
Definition extractTitle (env : Platform) (html : string) : option string :=
  let doc := parseFromString env html in
  match querySelector titleSelector doc with
  | Some titleElement => Some (textContent titleElement)
  | None => None
  end.

(** [document.querySelector(sel)] on the live document, and the write of a
    property of the element it returned. *)
Definition document_querySelector (sel : string) : Eff (option Element) :=
  fun st => (Normal (querySelector sel (document_elements st)), st).

Definition update_element (sel : string) (el : Element) : Eff unit :=
  modify (fun st =>
    with_document_elements (<[sel := el]> (document_elements st)) st).

(** [Router.updateMetaTags] *)
Definition updateMetaTags (env : Platform) (html : string) : Eff unit :=
  let doc := parseFromString env html in
  (match querySelector canonicalSelector doc with
   | Some canonical =>
       currentCanonical <- document_querySelector canonicalSelector ;;
       match currentCanonical with
       | Some currentCanonical =>
           update_element canonicalSelector
             (set_href (JS.replace ".html" "" (href canonical)) currentCanonical)
       | None => ret tt
       end
   | None => ret tt
   end) ;;
  (match querySelector ogUrlSelector doc with
   | Some ogUrl =>
       currentOgUrl <- document_querySelector ogUrlSelector ;;
       match currentOgUrl with
       | Some currentOgUrl =>
           update_element ogUrlSelector
             (set_content (JS.replace ".html" "" (content ogUrl)) currentOgUrl)
       | None => ret tt
       end
   | None => ret tt
   end).

(** [Router.reinitializeScripts]: reading the undeclared global [browser]
    throws a [ReferenceError]. *)
Definition reinitializeScripts (env : Platform) : Eff unit :=
  (match jQuery env with
   | Some jq =>
       when (fn_scrolly jq)
         (modify (fun st => with_plugin_calls (plugin_calls st ++ [Scrolly]) st))
   | None => ret tt
   end) ;;
  (match jQuery env with
   | Some jq =>
       if fn_dropotron jq then
         match browser env with
         | Some mobile =>
             modify (fun st =>
               with_plugin_calls
                 (plugin_calls st ++ [Dropotron (if mobile then "click" else "hover")])
                 st)
         | None => throw ReferenceError
         end
       else ret tt
   | None => ret tt
   end).

(** [window.history.pushState({ path: path }, '', url)]: a [SecurityError]
    when the URL does not parse or is not of the page's origin; otherwise the
    entry is pushed and the location shows the new URL. *)
Definition pushState (env : Platform) (path url : string) : Eff unit :=
  match newURL env url with
  | Some u =>
      if (url_origin u =? location_origin env)%string
      then modify (fun st =>
             with_pushed (pushed st ++ [mkHistoryEntry path url]) (pathname u) st)
      else throw SecurityError
  | None => throw SecurityError
  end.

(** [await fetch(file)] followed by the [response.ok] test of the loader. *)
Definition fetchOk (env : Platform) (htmlFile : string) : Eff (option string) :=
  modify (fun st => with_requests (requests st ++ [htmlFile]) st) ;;
  match fetch env htmlFile with
  | NetworkError => throw TypeError
  | Response status body =>
      if negb (ok status) then throw (Error ("Failed to load " +:+ htmlFile))
      else ret body
  end.

(** The [try] block of [Router.loadContent]. *)
Definition loadContent_try (env : Platform) (path : string) (updateHistory : bool)
    (htmlFile : string) : Eff unit :=
  modify (fun st =>
    with_body_classList ({[ loadingClass (ROUTER_CONFIG env) ]} ∪ body_classList st) st) ;;
  body <- fetchOk env htmlFile ;;
  html <- (match body with Some html => ret html | None => throw TypeError end) ;;
  let newContent := extractContent env html in
  contentContainer <- document_querySelector (contentSelector (ROUTER_CONFIG env)) ;;
  (match contentContainer with
   | Some contentContainer =>
       update_element (contentSelector (ROUTER_CONFIG env))
         (set_innerHTML newContent contentContainer)
   | None => ret tt
   end) ;;
  modify (with_scroll_position (0, 0)) ;;
  let title := extractTitle env html in
  (match title with
   | Some t => when (JS.truthy t) (modify (with_document_title t))
   | None => ret tt
   end) ;;
  updateMetaTags env html ;;
  when updateHistory
    (let fullUrl := baseUrl (ROUTER_CONFIG env) +:+ path in
     pushState env path fullUrl) ;;
  reinitializeScripts env.

(** [Router.loadContent], run to completion. *)
Definition loadContent (env : Platform) (path : string) (updateHistory : bool)
  : Eff unit :=
  let htmlFile := pathToHtmlFile path in
  tryCatchFinally
    (loadContent_try env path updateHistory htmlFile)
    (fun error =>
       modify (fun st => with_console (console st ++ [error]) st) ;;
       modify (with_location_href (Some htmlFile)))
    (modify (fun st =>
       with_body_classList (body_classList st ∖ {[ loadingClass (ROUTER_CONFIG env) ]}) st)).

(** The load of [path] completes without an exception in its [try] block. *)
Definition loadSucceeds (env : Platform) (path : string) (updateHistory : bool)
    (st : State) : bool :=
  match loadContent_try env path updateHistory (pathToHtmlFile path) st with
  | (Normal _, _) => true
  | (Throw _, _) => false
  end.

(** [Router.navigate] *)
Definition navigate (env : Platform) (path : string) : Eff unit := fun st =>
  if (path =? currentPath st)%string then ret tt st
  else (modify (with_currentPath path) ;; loadContent env path true) st.

(** [Router.isInternalLink]; [location_origin env] is [window.location.origin],
    and a missing or empty [href] is falsy. *)
Definition isInternalLink (env : Platform) (link : Element) : bool :=
  match getAttribute "href" link with
  | None => false
  | Some href =>
      if negb (JS.truthy href) then false
      else if JS.startsWith "http" href && negb (JS.includes (location_origin env) href)
      then false
      else if JS.startsWith "#" href then false
      else if JS.startsWith "mailto:" href || JS.startsWith "tel:" href then false
      else if bool_decide (getAttribute "target" link = Some "_blank") then false
      else true
  end.

(** [Router.getPathFromUrl]: [new URL(url)] throws when [url] does not parse. *)
Definition getPathFromUrl (env : Platform) (url : string) : string :=
  match newURL env url with
  | Some urlObj => pathname urlObj
  | None => url
  end.

(** [Router.getCurrentPath] *)
Definition getCurrentPath (st : State) : string := location_pathname st.

Definition titleMap : gmap string string :=
  <["/" := "GIFT Canada - Registered Canadian Charity | Toronto Non-Profit Organization"]>
  (<["/donate" := "Donate to GIFT Canada - Support Humanitarian Aid & Medical Missions"]>
  (<["/mission" := "GIFT Canada - GIFT Vision & Mission"]>
  (<["/get-involved" := "GIFT Canada - Get Involved"]> ∅))).

(** [Router.getExpectedTitle] *)
Definition getExpectedTitle (path : string) : string :=
  JS.orElse (titleMap !! path) "GIFT Canada".

(** [Router.handleInitialLoad] *)
Definition handleInitialLoad (env : Platform) : Eff unit := fun st =>
  let path := getCurrentPath st in
  if negb (path =? "/")%string && negb (JS.includes ".html" path)
     && negb (JS.includes "#" path)
  then
    let expectedTitle := getExpectedTitle path in
    if negb (document_title st =? expectedTitle)%string
    then loadContent env path false st
    else ret tt st
  else ret tt st.

(** The [click] listener of [Router.bindEvents]; [link] is
    [e.target.closest('a')], the result tells whether the default action was
    prevented. *)
Definition onClick (env : Platform) (link : option Element) : Eff bool :=
  match link with
  | Some link =>
      if isInternalLink env link then
        let path := getPathFromUrl env (href link) in
        navigate env path ;; ret true
      else ret false
  | None => ret false
  end.

(** The [popstate] listener of [Router.bindEvents]; [state] is [e.state],
    [None] for [null]. *)
Definition onPopState (env : Platform) (state : option string) : Eff unit :=
  match state with
  | Some path => if JS.truthy path then loadContent env path false else ret tt
  | None => ret tt
  end.

(** ** Start-up *)

(** A router instance: the state it works on, its [isInitialized] flag, and
    the events for which [bindEvents] has added a listener, oldest first. *)
Record Router := mkRouter {
  router_state : State;
  isInitialized : bool;
  listeners : list string
}.

(** [Router.bindEvents]: one [click] listener on the document and one
    [popstate] listener on the window (their bodies are [onClick] and
    [onPopState]). *)
Definition bindEvents (r : Router) : Router :=
  mkRouter (router_state r) (isInitialized r) (listeners r ++ ["click"; "popstate"]).

(** [Router.init] *)
Definition init (env : Platform) (r : Router) : Router :=
  if isInitialized r then r
  else
    let r1 := bindEvents r in
    let st := snd (handleInitialLoad env (router_state r1)) in
    mkRouter st true (listeners r1).

(** [new Router()] in a window whose state is [window]. *)
Definition newRouter (env : Platform) (window : State) : Router :=
  init env (mkRouter (with_currentPath (getCurrentPath window) window) false []).

(** An effect leaves a component [f] of the state as it found it, whether it
    completes normally or throws. *)
Definition preserves {X A : Type} (f : State -> X) (c : Eff A) : Prop :=
  forall st, f (snd (c st)) = f st.

(** ** A stand-in for the platform's URL parser

    Only absolute [http:] and [https:] URLs with a non-empty authority parse;
    the origin is the scheme and authority, the path runs to the first [?] or
    [#] and is [/] when empty.  User info, default ports, percent-encoding and
    dot segments are left out. *)

Module SimpleURL.

Definition endsAuthority (c : ascii) : bool :=
  Ascii.eqb c "/"%char || JS.isQueryOrFragmentMark c.

Fixpoint authority (s : string) : string :=
  match s with
  | EmptyString => EmptyString
  | String c s' => if endsAuthority c then EmptyString else String c (authority s')
  end.

Definition parseAfterScheme (scheme rest : string) : option URL :=
  let host := authority rest in
  if JS.truthy host then
    let tail := JS.slice (String.length host) rest in
    Some (mkURL (scheme +:+ host)
                (if JS.startsWith "/" tail then JS.splitFirst tail else "/"))
  else None.

Definition parse (s : string) : option URL :=
  if JS.startsWith "https://" s then parseAfterScheme "https://" (JS.slice 8 s)
  else if JS.startsWith "http://" s then parseAfterScheme "http://" (JS.slice 7 s)
  else None.

End SimpleURL.

(** ** A concrete page and platform, for running the router *)

Module Demo.

Definition origin : string := "https://gift.example".

Definition element (attrs : gmap string string) (href content inner text : string)
  : Element := mkElement attrs href content inner text.

Definition donateHtml : string :=
  "<html><head><title>Donate</title><link rel=canonical href=https://x/donate.html><meta property=og:url content=https://x/donate.html></head><body><div id=page-wrapper>Hello</div></body></html>".

Definition bareHtml : string := "<p>No wrapper here</p>".

(** The fetched donate page as the HTML parser presents it. *)
Definition donateDoc : gmap string Element :=
  <["#page-wrapper" := element {["id" := "page-wrapper"]} "" "" "Hello" "Hello"]>
  (<[titleSelector := element ∅ "" "" "Donate" "Donate"]>
  (<[canonicalSelector :=
       element (<["rel" := "canonical"]> {["href" := "https://x/donate.html"]})
               "https://x/donate.html" "" "" ""]>
  (<[ogUrlSelector :=
       element (<["property" := "og:url"]> {["content" := "https://x/donate.html"]})
               "" "https://x/donate.html" "" ""]> ∅))).

Definition parser (html : string) : gmap string Element :=
  if (html =? donateHtml)%string then donateDoc else ∅.

Definition network (file : string) : FetchOutcome :=
  if (file =? "donate.html")%string then Response 200 (Some donateHtml)
  else if (file =? "index.html")%string then Response 200 (Some bareHtml)
  else if (file =? "offline.html")%string then NetworkError
  else Response 404 (Some "Not Found").

Definition env : Platform :=
  {| location_origin := origin;
     fetch := network;
     parseFromString := parser;
     newURL := SimpleURL.parse;
     jQuery := Some (mkJQuery true true);
     browser := Some false |}.

(** The home page, as loaded from the server. *)
Definition homeElements : gmap string Element :=
  <["#page-wrapper" := element {["id" := "page-wrapper"]} "" "" "<h1>Home</h1>" "Home"]>
  (<[canonicalSelector :=
       element (<["rel" := "canonical"]> {["href" := "https://x/"]})
               "https://x/" "" "" ""]>
  (<[ogUrlSelector :=
       element (<["property" := "og:url"]> {["content" := "https://x/"]})
               "" "https://x/" "" ""]> ∅)).

Definition home : State :=
  {| currentPath := "/";
     document_title := "GIFT Canada - Registered Canadian Charity | Toronto Non-Profit Organization";
     document_elements := homeElements;
     body_classList := {["homepage"]};
     location_pathname := "/";
     location_href := None;
     pushed := [];
     requests := [];
     scroll_position := (0, 120);
     console := [];
     plugin_calls := [] |}.

(** A direct visit to [/donate] answered with the home page's document. *)
Definition directVisit : State :=
  mkState "/donate" (document_title home) homeElements {["homepage"]} "/donate"
          None [] [] (0, 0) [] [].

(** An anchor with the given [href] attribute, resolved to [resolved], and an
    optional [target]. *)
Definition anchor (hrefAttr resolved : string) (target : option string) : Element :=
  mkElement (match target with
             | Some t => <["target" := t]> {["href" := hrefAttr]}
             | None => {["href" := hrefAttr]}
             end) resolved "" "" "".

Definition foreignHref : string := "https://gift.example.evil.test/mission".


End Demo.

(** * Properties *)

(** ** String methods *)

Lemma startsWith_append (p t : string) : JS.startsWith p (p +:+ t) = true.
Proof.
  induction p as [|a p IH]; simpl; [reflexivity|].
  rewrite Ascii.eqb_refl. exact IH.
Qed.

Lemma startsWith_inv (p s : string) :
  JS.startsWith p s = true -> exists t, s = p +:+ t.
Proof.
  revert s. induction p as [|a p IH]; intros s H.
  - exists s. reflexivity.
  - destruct s as [|b s]; simpl in H; [discriminate|].
    apply andb_prop in H as [Hab Hps].
    apply Ascii.eqb_eq in Hab. subst b.
    destruct (IH s Hps) as [t ->]. exists t. reflexivity.
Qed.

Lemma slice_length_append (p t : string) : JS.slice (String.length p) (p +:+ t) = t.
Proof.
  induction p as [|a p IH]; simpl.
  - destruct t; reflexivity.
  - exact IH.
Qed.

Lemma append_cons (c : ascii) (a b : string) : String c a +:+ b = String c (a +:+ b).
Proof. reflexivity. Qed.

Lemma append_assoc (a b c : string) : (a +:+ b) +:+ c = a +:+ (b +:+ c).
Proof.
  induction a as [|x a IH]; [reflexivity|].
  change (String x ((a +:+ b) +:+ c) = String x (a +:+ b +:+ c)).
  f_equal. exact IH.
Qed.

(** A prefix test that succeeds on [a +:+ b] is decided inside [a] when the
    pattern is no longer than [a]. *)
Lemma startsWith_within (p a b : string) :
  String.length p <= String.length a ->
  JS.startsWith p (a +:+ b) = true -> JS.startsWith p a = true.
Proof.
  revert a. induction p as [|x p IH]; intros a Hlen H; [reflexivity|].
  destruct a as [|y a]; simpl in Hlen; [lia|].
  simpl in H |- *. apply andb_prop in H as [Hxy Hp].
  rewrite Hxy. simpl. apply IH; [lia | exact Hp].
Qed.

Lemma includes_here (p s : string) : JS.startsWith p s = true -> JS.includes p s = true.
Proof. intros H. destruct s; simpl in *; rewrite H; reflexivity. Qed.

Lemma includes_tail (p : string) (c : ascii) (s : string) :
  JS.includes p (String c s) = false -> JS.includes p s = false.
Proof. simpl. intros H. apply orb_false_elim in H as [_ H]. exact H. Qed.

Lemma includes_not_prefix (p s : string) :
  JS.includes p s = false -> JS.startsWith p s = false.
Proof. intros H. destruct s; simpl in H; apply orb_false_elim in H as [H _]; exact H. Qed.

(** [split(/[?#]/)[0]] cuts the string in a part free of [?] and [#] and a
    rest that is empty or begins with one of them. *)
Lemma splitFirst_decompose (s : string) :
  exists suffix, s = JS.splitFirst s +:+ suffix
                 /\ noQueryOrFragmentMark (JS.splitFirst s) = true
                 /\ isQueryOrFragmentSuffix suffix = true.
Proof.
  induction s as [|c s [suffix (Heq & Hno & Hsuf)]]; simpl.
  - exists "". repeat split.
  - destruct (JS.isQueryOrFragmentMark c) eqn:Hc.
    + exists (String c s). simpl. rewrite Hc. repeat split.
    + exists suffix. simpl. rewrite Hc, Hno. repeat split; [|exact Hsuf].
      rewrite append_cons. congruence.
Qed.

(** A replacement that finds no occurrence returns the string unchanged. *)
Lemma replace_absent (p r s : string) : JS.includes p s = false -> JS.replace p r s = s.
Proof.
  induction s as [|c s IH]; intros H.
  - simpl in *. apply orb_false_elim in H as [H _]. rewrite H. reflexivity.
  - pose proof (includes_not_prefix _ _ H) as Hp.
    simpl in *. rewrite Hp. f_equal. apply IH.
    rewrite Hp in H. exact H.
Qed.

(** [replace('.html', '')] removes the leftmost occurrence of [.html]. *)
Lemma replace_html_leftmost (pre post : string) :
  JS.includes ".html" (pre +:+ ".htm") = false ->
  JS.replace ".html" "" (pre +:+ ".html" +:+ post) = pre +:+ post.
Proof.
  induction pre as [|c pre IH]; intros H.
  - simpl. destruct post; reflexivity.
  - assert (Hp : JS.startsWith ".html" (String c pre +:+ ".html" +:+ post) = false).
    { destruct (JS.startsWith ".html" (String c pre +:+ ".html" +:+ post)) eqn:E;
        [|reflexivity].
      exfalso.
      assert (E' : JS.startsWith ".html" ((String c pre +:+ ".htm") +:+ ("l" +:+ post)) = true).
      { rewrite append_assoc. exact E. }
      apply startsWith_within in E'.
      - apply includes_here in E'. congruence.
      - clear. simpl. induction pre; simpl; lia. }
    change (String c pre +:+ ".html" +:+ post)
      with (String c (pre +:+ ".html" +:+ post)) in *.
    cbn [JS.replace]. rewrite Hp.
    change (String c pre +:+ post) with (String c (pre +:+ post)).
    f_equal. apply IH. apply (includes_tail _ c). exact H.
Qed.

(** ** Path to file mapping *)

(** The remainder after the leading slash is a single [/] for the path [//]
    only. *)
Lemma remainder_is_slash (path : string) :
  (if JS.startsWith "/" path then JS.slice 1 path else path) = "/" <-> path = "//".
Proof.
  split.
  - destruct path as [|c path]; cbn [JS.startsWith]; [discriminate|].
    destruct (Ascii.eqb_spec "/" c) as [<-|Hc]; cbn [andb JS.slice].
    + intros ->. reflexivity.
    + intros H. injection H as H _. congruence.
  - intros ->. reflexivity.
Qed.

(** The code and the mapping as specified agree on every path but [//]. *)
Lemma pathToHtmlFile_as_specified_agrees (path : string) :
  path <> "//" -> pathToHtmlFile path = pathToHtmlFile_as_specified path.
Proof.
  intros Hne. unfold pathToHtmlFile, pathToHtmlFile_as_specified.
  set (rest := if JS.startsWith "/" path then JS.slice 1 path else path).
  destruct (String.eqb_spec rest "/") as [Hr|Hr].
  - apply remainder_is_slash in Hr. contradiction.
  - rewrite orb_false_r. reflexivity.
Qed.

(** C1, as the code has it: [pathToHtmlFile] strips a leading slash, returns
    [index.html] when the remainder is empty or is a single slash, and
    otherwise cuts the remainder at its first [?] or [#] and appends [.html];
    the five sample paths map as listed. *)
Theorem pathToHtmlFile_mapping :
  (forall path, exists rest base suffix,
      (if JS.startsWith "/" path then path = "/" +:+ rest else rest = path)
      /\ rest = base +:+ suffix
      /\ noQueryOrFragmentMark base = true
      /\ isQueryOrFragmentSuffix suffix = true
      /\ pathToHtmlFile path =
           if (rest =? "")%string || (rest =? "/")%string then "index.html"
           else base +:+ ".html")
  /\ pathToHtmlFile "/" = "index.html"
  /\ pathToHtmlFile "" = "index.html"
  /\ pathToHtmlFile "/donate" = "donate.html"
  /\ pathToHtmlFile "/donate?ref=x" = "donate.html"
  /\ pathToHtmlFile "/get-involved#team" = "get-involved.html".
Proof.
  split; [|repeat split].
  intros path.
  set (rest := if JS.startsWith "/" path then JS.slice 1 path else path).
  destruct (splitFirst_decompose rest) as [suffix (Heq & Hno & Hsuf)].
  exists rest, (JS.splitFirst rest), suffix.
  repeat split; try assumption.
  subst rest. destruct (JS.startsWith "/" path) eqn:Hs; [|reflexivity].
  destruct (startsWith_inv _ _ Hs) as [t ->]. reflexivity.
Qed.

(** C1, where the wording of the claim and the code part: the remainder of
    [//] is not empty, the claim maps it to [/.html], the code to
    [index.html]. *)
Lemma pathToHtmlFile_double_slash :
  pathToHtmlFile "//" = "index.html"
  /\ pathToHtmlFile_as_specified "//" = "/.html"
  /\ String.eqb (pathToHtmlFile "//") (pathToHtmlFile_as_specified "//") = false.
Proof. repeat split. Qed.

(** ** Link classification *)

(** What [isInternalLink] tests, condition by condition. *)
Lemma isInternalLink_iff (env : Platform) (link : Element) :
  isInternalLink env link = true <->
  exists h, getAttribute "href" link = Some h
    /\ h <> ""
    /\ ~ (JS.startsWith "http" h = true /\ JS.includes (location_origin env) h = false)
    /\ JS.startsWith "#" h = false
    /\ JS.startsWith "mailto:" h = false
    /\ JS.startsWith "tel:" h = false
    /\ getAttribute "target" link <> Some "_blank".
Proof.
  unfold isInternalLink. split.
  - destruct (getAttribute "href" link) as [h|]; [|discriminate].
    intros H. exists h.
    destruct h as [|c h]; [discriminate|].
    cbn [JS.truthy negb] in H.
    destruct (JS.startsWith "http" (String c h)) eqn:E1;
      destruct (JS.includes (location_origin env) (String c h)) eqn:E2;
      cbn [andb negb] in H; try discriminate;
      destruct (JS.startsWith "#" (String c h)) eqn:E3; try discriminate;
      destruct (JS.startsWith "mailto:" (String c h)) eqn:E4; try discriminate;
      destruct (JS.startsWith "tel:" (String c h)) eqn:E5; try discriminate;
      cbn [orb] in H; case_bool_decide; try discriminate;
      repeat split; try assumption; try discriminate; intros [? ?]; discriminate.
  - intros (h & -> & Hne & Hext & H3 & H4 & H5 & Ht).
    destruct h as [|c h]; [contradiction|].
    cbn [JS.truthy negb]. rewrite H3, H4, H5. cbn [orb].
    rewrite bool_decide_eq_false_2 by exact Ht.
    destruct (JS.startsWith "http" (String c h)) eqn:E1;
      destruct (JS.includes (location_origin env) (String c h)) eqn:E2;
      cbn [andb negb]; try reflexivity.
    exfalso. apply Hext. split; reflexivity.
Qed.

(** C2, the testable cases the code meets: a fragment link, a link with
    target [_blank], a [mailto:] link and a plainly foreign link are left to
    the browser, and [/mission] is intercepted. *)
Lemma isInternalLink_samples :
  isInternalLink Demo.env (Demo.anchor "#section" "https://gift.example/#section" None) = false
  /\ isInternalLink Demo.env
       (Demo.anchor "/mission" "https://gift.example/mission" (Some "_blank")) = false
  /\ isInternalLink Demo.env (Demo.anchor "mailto:a@b.c" "mailto:a@b.c" None) = false
  /\ isInternalLink Demo.env
       (Demo.anchor "https://other.test/" "https://other.test/" None) = false
  /\ isInternalLink Demo.env
       (Demo.anchor "/mission" "https://gift.example/mission" None) = true.
Proof. repeat split; vm_compute; reflexivity. Qed.

(** C2, where the code misses the claim: a link to another origin whose URL
    holds the page's origin as a substring is classified as internal, and the
    click on it is intercepted and answered with the page's own [/mission]. *)
Theorem isInternalLink_foreign_origin :
  let link := Demo.anchor Demo.foreignHref Demo.foreignHref None in
  url_origin <$> SimpleURL.parse Demo.foreignHref = Some "https://gift.example.evil.test"
  /\ location_origin Demo.env = "https://gift.example"
  /\ isInternalLink Demo.env link = true
  /\ fst (onClick Demo.env (Some link) Demo.home) = Normal true
  /\ requests (snd (onClick Demo.env (Some link) Demo.home)) = ["mission.html"].
Proof. repeat split; vm_compute; reflexivity. Qed.

(** ** Effects *)

Section Preservation.
Context {X : Type} (f : State -> X).

Lemma preserves_ret {A} (a : A) : preserves f (ret a).
Proof. intros st. reflexivity. Qed.

Lemma preserves_throw {A} (e : JSError) : preserves f (@throw A e).
Proof. intros st. reflexivity. Qed.

Lemma preserves_modify (g : State -> State) :
  (forall st, f (g st) = f st) -> preserves f (modify g).
Proof. intros H st. apply H. Qed.

Lemma preserves_bind {A B} (c : Eff A) (k : A -> Eff B) :
  preserves f c -> (forall a, preserves f (k a)) -> preserves f (bind c k).
Proof.
  intros Hc Hk st. unfold bind. specialize (Hc st).
  destruct (c st) as [[a|e] st1]; simpl in *.
  - rewrite Hk. exact Hc.
  - exact Hc.
Qed.

Lemma preserves_when (b : bool) (c : Eff unit) :
  preserves f c -> preserves f (when b c).
Proof. intros H. destruct b; [exact H | apply preserves_ret]. Qed.

Lemma preserves_tryCatchFinally (body : Eff unit) (handler : JSError -> Eff unit)
    (cleanup : Eff unit) :
  preserves f body -> (forall e, preserves f (handler e)) -> preserves f cleanup ->
  preserves f (tryCatchFinally body handler cleanup).
Proof.
  intros Hb Hh Hc st. unfold tryCatchFinally.
  specialize (Hb st). destruct (body st) as [[[]|e] st1]; simpl in Hb.
  - specialize (Hc st1). cbn. destruct (cleanup st1) as [[[]|e] st3]; simpl in *; congruence.
  - specialize (Hh e st1). destruct (handler e st1) as [r2 st2]; simpl in Hh.
    specialize (Hc st2). destruct (cleanup st2) as [[[]|e'] st3]; simpl in *; congruence.
Qed.

Lemma preserves_document_querySelector (sel : string) :
  preserves f (document_querySelector sel).
Proof. intros st. reflexivity. Qed.
End Preservation.

(** Splits an effect along its binds and branches and closes the leaves that
    touch other fields of the state than the preserved one. *)
Ltac preserves_tac :=
  repeat first
    [ apply preserves_ret
    | apply preserves_throw
    | apply preserves_document_querySelector
    | apply preserves_bind; [|intros ?]
    | apply preserves_when
    | apply preserves_tryCatchFinally; [|intros ?|]
    | apply preserves_modify; intros ?; reflexivity
    | match goal with
      | |- preserves _ (match ?x with _ => _ end) => destruct x
      | |- preserves _ (if ?x then _ else _) => destruct x
      end ].

(** From a run [H : c s = (r, s')], the equation [f s' = f s] once [c] is
    shown to preserve [f]. *)
Ltac frame_of f H :=
  match type of H with
  | ?c ?s = (_, ?s') =>
      let Q := fresh "Q" in
      assert (Q : preserves f c);
      [ | specialize (Q s); rewrite H in Q; exact Q ]
  end.

(** When a sequence completes normally, so did its first effect, and the rest
    ran from the state it left. *)
Lemma bind_Normal_inv {A B} (c : Eff A) (k : A -> Eff B) st b st' :
  bind c k st = (Normal b, st') ->
  exists a st1, c st = (Normal a, st1) /\ k a st1 = (Normal b, st').
Proof.
  unfold bind. destruct (c st) as [[a|e] st1]; intros H; [|discriminate].
  exists a, st1. split; [reflexivity | exact H].
Qed.

(** ** The parts of the state the loader's steps leave alone *)

Section Frames.
Variable env : Platform.

Lemma updateMetaTags_preserves {X} (f : State -> X) html :
  (forall v st, f (with_document_elements v st) = f st) ->
  preserves f (updateMetaTags env html).
Proof.
  intros Hf. unfold updateMetaTags, update_element.
  preserves_tac; apply preserves_modify; intros; apply Hf.
Qed.

Lemma reinitializeScripts_preserves {X} (f : State -> X) :
  (forall v st, f (with_plugin_calls v st) = f st) ->
  preserves f (reinitializeScripts env).
Proof.
  intros Hf. unfold reinitializeScripts.
  preserves_tac; apply preserves_modify; intros; apply Hf.
Qed.

Lemma pushState_preserves {X} (f : State -> X) path url :
  (forall v p st, f (with_pushed v p st) = f st) ->
  preserves f (pushState env path url).
Proof.
  intros Hf. unfold pushState.
  preserves_tac; apply preserves_modify; intros; apply Hf.
Qed.

Lemma fetchOk_requests file st :
  requests (snd (fetchOk env file st)) = (requests st ++ [file])%list.
Proof.
  unfold fetchOk, bind, modify.
  destruct (fetch env file) as [|status body]; [reflexivity|].
  destruct (negb (ok status)); reflexivity.
Qed.

(** The recorded path is no business of the loader. *)
Lemma loadContent_currentPath path updateHistory :
  preserves currentPath (loadContent env path updateHistory).
Proof.
  unfold loadContent, loadContent_try, fetchOk, updateMetaTags,
    reinitializeScripts, pushState, update_element.
  preserves_tac.
Qed.

(** Each load issues one request, for the mapped file. *)
Lemma loadContent_requests path updateHistory st :
  requests (snd (loadContent env path updateHistory st))
  = (requests st ++ [pathToHtmlFile path])%list.
Proof.
  assert (Htry : forall st,
    requests (snd (loadContent_try env path updateHistory (pathToHtmlFile path) st))
    = (requests st ++ [pathToHtmlFile path])%list).
  { clear st. intros st. unfold loadContent_try.
    unfold bind at 1. cbn [modify].
    set (st0 := with_body_classList _ st).
    change (requests st) with (requests st0).
    rewrite <- (fetchOk_requests (pathToHtmlFile path) st0).
    unfold bind at 1.
    destruct (fetchOk env (pathToHtmlFile path) st0) as [[body|e] st1];
      [|reflexivity].
    cbn [snd].
    apply (preserves_bind requests); [preserves_tac|]. intros html.
    unfold update_element, updateMetaTags, reinitializeScripts, pushState.
    preserves_tac. }
  unfold loadContent, tryCatchFinally.
  specialize (Htry st).
  destruct (loadContent_try _ _ _ _ st) as [[[]|e] st1]; cbn in *; exact Htry.
Qed.

(** Without a history update nothing is pushed, whatever the outcome. *)
Lemma loadContent_no_push path :
  preserves pushed (loadContent env path false).
Proof.
  unfold loadContent, loadContent_try, fetchOk, updateMetaTags,
    reinitializeScripts, update_element.
  cbn [when]. preserves_tac.
Qed.

(** The loader never rejects: the handler and the cleanup do not throw. *)
Lemma loadContent_completes path updateHistory st :
  fst (loadContent env path updateHistory st) = Normal tt.
Proof.
  unfold loadContent, tryCatchFinally.
  destruct (loadContent_try _ _ _ _ st) as [[[]|e] st1]; reflexivity.
Qed.
End Frames.

(** ** Navigation *)

(** C3: navigating to the recorded path does nothing: the state is returned
    as it was, so no request is issued, no history entry is pushed, and the
    recorded path and the document stay as they are. *)
Theorem navigate_active_path_noop (env : Platform) (st : State) :
  navigate env (currentPath st) st = (Normal tt, st)
  /\ requests (snd (navigate env (currentPath st) st)) = requests st
  /\ pushed (snd (navigate env (currentPath st) st)) = pushed st
  /\ currentPath (snd (navigate env (currentPath st) st)) = currentPath st
  /\ document_elements (snd (navigate env (currentPath st) st)) = document_elements st
  /\ document_title (snd (navigate env (currentPath st) st)) = document_title st.
Proof.
  assert (H : navigate env (currentPath st) st = (Normal tt, st)).
  { unfold navigate. rewrite String.eqb_refl. reflexivity. }
  rewrite H. repeat split.
Qed.

(** Navigating to another path records it and starts the loader from there. *)
Lemma navigate_other_path (env : Platform) (path : string) (st : State) :
  path <> currentPath st ->
  navigate env path st = loadContent env path true (with_currentPath path st).
Proof.
  intros Hne. unfold navigate.
  destruct (String.eqb_spec path (currentPath st)); [contradiction | reflexivity].
Qed.

(** ** The content loader *)

(** What the [catch] and [finally] blocks make of a failed [try] block. *)
Lemma loadContent_failed (env : Platform) path updateHistory st e st1 :
  loadContent_try env path updateHistory (pathToHtmlFile path) st = (Throw e, st1) ->
  location_href (snd (loadContent env path updateHistory st)) = Some (pathToHtmlFile path)
  /\ console (snd (loadContent env path updateHistory st)) = (console st1 ++ [e])%list.
Proof.
  intros H. unfold loadContent, tryCatchFinally. rewrite H. split; reflexivity.
Qed.

(** A response outside the 200-299 range makes the [try] block throw right
    after the request. *)
Lemma loadContent_try_not_ok (env : Platform) path updateHistory st status body :
  fetch env (pathToHtmlFile path) = Response status body ->
  ok status = false ->
  exists st1,
    loadContent_try env path updateHistory (pathToHtmlFile path) st
    = (Throw (Error ("Failed to load " +:+ pathToHtmlFile path)), st1).
Proof.
  intros Hf Hok. unfold loadContent_try, fetchOk, bind, modify.
  rewrite Hf, Hok. cbn. eexists. reflexivity.
Qed.

Lemma loadContent_try_network_error (env : Platform) path updateHistory st :
  fetch env (pathToHtmlFile path) = NetworkError ->
  exists st1,
    loadContent_try env path updateHistory (pathToHtmlFile path) st
    = (Throw TypeError, st1).
Proof.
  intros Hf. unfold loadContent_try, fetchOk, bind, modify.
  rewrite Hf. cbn. eexists. reflexivity.
Qed.

(** C4: whatever the loader meets, it returns with the loading class off the
    body; when the response is not a success (or the request fails), the
    location is assigned the mapped file.  On the sample platform the file of
    [/volunteer] answers 404. *)
Theorem loadContent_cleanup (env : Platform) (path : string) (updateHistory : bool)
    (st : State) :
  let st' := snd (loadContent env path updateHistory st) in
  fst (loadContent env path updateHistory st) = Normal tt
  /\ (loadingClass (ROUTER_CONFIG env) ∉ body_classList st')
  /\ (forall status body,
        fetch env (pathToHtmlFile path) = Response status body ->
        ok status = false ->
        location_href st' = Some (pathToHtmlFile path))
  /\ (fetch env (pathToHtmlFile path) = NetworkError ->
      location_href st' = Some (pathToHtmlFile path))
  /\ fetch Demo.env (pathToHtmlFile "/volunteer") = Response 404 (Some "Not Found")
  /\ location_href (snd (loadContent Demo.env "/volunteer" true Demo.home))
     = Some "volunteer.html"
  /\ (bool_decide ("is-loading" ∈
        body_classList (snd (loadContent Demo.env "/volunteer" true Demo.home))))
     = false.
Proof.
  cbv zeta. split; [apply loadContent_completes|]. split; [|split; [|split]].
  - unfold loadContent, tryCatchFinally.
    destruct (loadContent_try _ _ _ _ st) as [[[]|e] st1]; cbn;
      apply not_elem_of_difference; right; apply elem_of_singleton; reflexivity.
  - intros status body Hf Hok.
    destruct (loadContent_try_not_ok env path updateHistory st _ _ Hf Hok) as [st1 H].
    apply (loadContent_failed _ _ _ _ _ _ H).
  - intros Hf.
    destruct (loadContent_try_network_error env path updateHistory st Hf) as [st1 H].
    apply (loadContent_failed _ _ _ _ _ _ H).
  - repeat split; vm_compute; reflexivity.
Qed.

(** ** Content extraction and splice *)

(** The inner markup of the live content container. *)
Local Abbreviation liveContent st :=
  (innerHTML <$> querySelector "#page-wrapper" (document_elements st)).

(** When the handler and the cleanup leave a component alone, it is after
    the whole statement what the [try] block made of it. *)
Lemma tryCatchFinally_body {X} (f : State -> X) body handler cleanup st :
  (forall e, preserves f (handler e)) -> preserves f cleanup ->
  f (snd (tryCatchFinally body handler cleanup st)) = f (snd (body st)).
Proof.
  intros Hh Hc. unfold tryCatchFinally.
  destruct (body st) as [[[]|e] st1]; cbn [snd].
  - specialize (Hc st1). destruct (cleanup st1) as [[[]|e] st3]; exact Hc.
  - specialize (Hh e st1). destruct (handler e st1) as [r2 st2].
    specialize (Hc st2). destruct (cleanup st2) as [[[]|e'] st3];
      cbn [snd] in *; congruence.
Qed.

(** Writing the element of one selector leaves what another selector finds. *)
Lemma update_element_other {X} (g : option Element -> X) sel sel' el :
  sel <> sel' ->
  preserves (fun st => g (document_elements st !! sel')) (update_element sel el).
Proof.
  intros Hne. apply preserves_modify. intros st. cbn.
  rewrite lookup_insert_ne by exact Hne. reflexivity.
Qed.

(** The metadata update writes the canonical link and the Open-Graph meta
    only. *)
Lemma updateMetaTags_other_elements {X} (g : option Element -> X) (env : Platform)
    html sel :
  sel <> canonicalSelector -> sel <> ogUrlSelector ->
  preserves (fun st => g (document_elements st !! sel)) (updateMetaTags env html).
Proof.
  intros H1 H2. unfold updateMetaTags.
  preserves_tac; apply update_element_other; congruence.
Qed.

(** After a fetch that succeeded, the live container (when the page has one)
    holds the extracted content, whatever the later steps do. *)
Lemma loadContent_splice (env : Platform) path updateHistory st status html live :
  fetch env (pathToHtmlFile path) = Response status (Some html) ->
  ok status = true ->
  querySelector "#page-wrapper" (document_elements st) = Some live ->
  liveContent (snd (loadContent env path updateHistory st))
  = Some (extractContent env html).
Proof.
  intros Hf Hok Hlive. unfold loadContent.
  rewrite (tryCatchFinally_body (fun st => liveContent st));
    [|intros e; preserves_tac|preserves_tac].
  unfold loadContent_try, fetchOk.
  unfold bind at 1. cbn [modify].
  unfold bind at 1. unfold bind at 1. cbn [modify]. rewrite Hf, Hok. cbn [negb ret].
  unfold bind at 1. cbn [ret].
  unfold bind at 1. unfold document_querySelector at 1. cbn [document_elements with_requests with_body_classList].
  cbn [contentSelector ROUTER_CONFIG]. rewrite Hlive.
  unfold bind at 1. unfold update_element at 1. cbn [modify].
  match goal with
  | |- context [bind ?c ?k ?s] =>
      assert (Hrest : preserves (fun st => liveContent st) (bind c k))
  end.
  { apply preserves_bind; [preserves_tac|intros _].
    apply preserves_bind; [preserves_tac|intros _].
    apply preserves_bind;
      [apply (updateMetaTags_other_elements (fmap innerHTML)); discriminate|intros _].
    apply preserves_bind;
      [apply preserves_when, pushState_preserves; reflexivity|intros _].
    apply reinitializeScripts_preserves. reflexivity. }
  rewrite Hrest. cbn. unfold querySelector.
  rewrite lookup_insert_eq. reflexivity.
Qed.

(** C5: [extractContent] returns the inner markup of the element the content
    selector finds in the fetched document, and the whole fetched text when
    there is none; after a successful fetch the live container holds that
    content, so a fetched container with inner text Hello leaves the live
    container with exactly Hello. *)
Theorem extractContent_container (env : Platform) (html : string) :
  (forall el, querySelector "#page-wrapper" (parseFromString env html) = Some el ->
              extractContent env html = innerHTML el)
  /\ (querySelector "#page-wrapper" (parseFromString env html) = None ->
      extractContent env html = html)
  /\ (forall path updateHistory st status el live,
        fetch env (pathToHtmlFile path) = Response status (Some html) ->
        ok status = true ->
        querySelector "#page-wrapper" (parseFromString env html) = Some el ->
        innerHTML el = "Hello" ->
        querySelector "#page-wrapper" (document_elements st) = Some live ->
        liveContent (snd (loadContent env path updateHistory st)) = Some "Hello")
  /\ liveContent Demo.home = Some "<h1>Home</h1>"
  /\ liveContent (snd (loadContent Demo.env "/donate" true Demo.home)) = Some "Hello".
Proof.
  split; [|split; [|split]].
  - intros el H. unfold extractContent. cbn [contentSelector ROUTER_CONFIG].
    rewrite H. reflexivity.
  - intros H. unfold extractContent. cbn [contentSelector ROUTER_CONFIG].
    rewrite H. reflexivity.
  - intros path updateHistory st status el live Hf Hok Hel Hin Hlive.
    rewrite (loadContent_splice env path updateHistory st status html live Hf Hok Hlive).
    unfold extractContent. cbn [contentSelector ROUTER_CONFIG].
    rewrite Hel, Hin. reflexivity.
  - split; vm_compute; reflexivity.
Qed.

(** ** Metadata *)

(** C6: the metadata update writes the live canonical link's [href] and the
    live Open-Graph URL's [content] with the fetched values from which
    [.html] (its leftmost occurrence, as [replace] with a string pattern does)
    is removed, each only when the fetched and the live document both have
    the element, and touches no other element; [https://x/donate.html]
    becomes [https://x/donate]. *)
Theorem updateMetaTags_copies_stripped (env : Platform) (html : string) (st : State) :
  let doc := parseFromString env html in
  let live := document_elements st in
  let live' := document_elements (snd (updateMetaTags env html st)) in
  live' !! canonicalSelector
    = match doc !! canonicalSelector, live !! canonicalSelector with
      | Some canonical, Some currentCanonical =>
          Some (set_href (JS.replace ".html" "" (href canonical)) currentCanonical)
      | _, _ => live !! canonicalSelector
      end
  /\ live' !! ogUrlSelector
    = match doc !! ogUrlSelector, live !! ogUrlSelector with
      | Some ogUrl, Some currentOgUrl =>
          Some (set_content (JS.replace ".html" "" (content ogUrl)) currentOgUrl)
      | _, _ => live !! ogUrlSelector
      end
  /\ (forall sel, sel <> canonicalSelector -> sel <> ogUrlSelector ->
                  live' !! sel = live !! sel)
  /\ (forall v currentCanonical, href (set_href v currentCanonical) = v)
  /\ (forall v currentOgUrl, content (set_content v currentOgUrl) = v)
  /\ (forall v, JS.includes ".html" v = false -> JS.replace ".html" "" v = v)
  /\ (forall pre post, JS.includes ".html" (pre +:+ ".htm") = false ->
        JS.replace ".html" "" (pre +:+ ".html" +:+ post) = pre +:+ post)
  /\ JS.replace ".html" "" "https://x/donate.html" = "https://x/donate"
  /\ href <$> document_elements (snd (loadContent Demo.env "/donate" true Demo.home))
              !! canonicalSelector = Some "https://x/donate".
Proof.
  cbv zeta.
  assert (Hne : canonicalSelector <> ogUrlSelector) by discriminate.
  split; [|split; [|split]].
  - unfold updateMetaTags, bind, document_querySelector, update_element, modify,
      querySelector, ret.
    destruct (parseFromString env html !! canonicalSelector) as [canonical|],
      (document_elements st !! canonicalSelector) as [currentCanonical|] eqn:Hc,
      (parseFromString env html !! ogUrlSelector) as [ogUrl|]; cbn;
      repeat match goal with
        | |- context [match ?m !! ogUrlSelector with _ => _ end] =>
            destruct (m !! ogUrlSelector); cbn
        end;
      rewrite ?(lookup_insert_ne _ ogUrlSelector canonicalSelector) by congruence;
      rewrite ?lookup_insert_eq; auto.
  - unfold updateMetaTags, bind, document_querySelector, update_element, modify,
      querySelector, ret.
    destruct (parseFromString env html !! canonicalSelector) as [canonical|],
      (document_elements st !! canonicalSelector) as [currentCanonical|],
      (parseFromString env html !! ogUrlSelector) as [ogUrl|]; cbn;
      rewrite ?(lookup_insert_ne _ canonicalSelector ogUrlSelector) by congruence;
      destruct (document_elements st !! ogUrlSelector) as [currentOgUrl|] eqn:Ho;
      cbn;
      rewrite ?lookup_insert_eq;
      rewrite ?(lookup_insert_ne _ canonicalSelector ogUrlSelector) by congruence;
      rewrite ?Ho; auto.
  - intros sel H1 H2.
    apply (updateMetaTags_other_elements (fun o => o) env html sel H1 H2 st).
  - repeat split.
    + intros v Hv. apply replace_absent. exact Hv.
    + intros pre post H. apply replace_html_leftmost. exact H.
Qed.

(** ** Initial load *)

Lemma titleMap_lookup (p t : string) :
  titleMap !! p = Some t -> JS.truthy t = true.
Proof.
  unfold titleMap. intros H.
  repeat (apply lookup_insert_Some in H as [[_ <-]|[_ H]]; [reflexivity|]).
  rewrite lookup_empty in H. discriminate.
Qed.

(** C7: the initial load fetches the content of the current path, without a
    history update, exactly when the path is not [/], holds neither [.html]
    nor [#], and the document's title is not the expected one; the expected
    title comes from a table of four paths and is [GIFT Canada] for any
    other path. *)
Theorem handleInitialLoad_trigger (env : Platform) (st : State) :
  let path := location_pathname st in
  let triggers := path <> "/" /\ JS.includes ".html" path = false
                  /\ JS.includes "#" path = false
                  /\ document_title st <> getExpectedTitle path in
  (triggers -> handleInitialLoad env st = loadContent env path false st)
  /\ (~ triggers -> handleInitialLoad env st = (Normal tt, st))
  /\ (requests (snd (handleInitialLoad env st))
        = (requests st ++ [pathToHtmlFile path])%list <-> triggers)
  /\ (requests (snd (handleInitialLoad env st)) = requests st <-> ~ triggers)
  /\ pushed (snd (handleInitialLoad env st)) = pushed st
  /\ size titleMap = 4
  /\ dom titleMap = {[ "/"; "/donate"; "/mission"; "/get-involved" ]}
  /\ (forall p t, titleMap !! p = Some t -> getExpectedTitle p = t)
  /\ (forall p, titleMap !! p = None -> getExpectedTitle p = "GIFT Canada")
  /\ requests (snd (handleInitialLoad Demo.env Demo.directVisit)) = ["donate.html"]
  /\ requests (snd (handleInitialLoad Demo.env Demo.home)) = [].
Proof.
  cbv zeta.
  set (path := location_pathname st).
  set (triggers := path <> "/" /\ JS.includes ".html" path = false
                   /\ JS.includes "#" path = false
                   /\ document_title st <> getExpectedTitle path).
  assert (Hdec : {triggers} + {~ triggers}).
  { unfold triggers.
    destruct (String.eqb_spec path "/"); [right; tauto|].
    destruct (JS.includes ".html" path); [right; intros (_ & ? & _); discriminate|].
    destruct (JS.includes "#" path); [right; intros (_ & _ & ? & _); discriminate|].
    destruct (String.eqb_spec (document_title st) (getExpectedTitle path));
      [right; tauto | left; tauto]. }
  assert (Hyes : triggers -> handleInitialLoad env st = loadContent env path false st).
  { intros (H1 & H2 & H3 & H4). unfold handleInitialLoad, getCurrentPath.
    fold path. rewrite H2, H3.
    destruct (String.eqb_spec path "/"); [contradiction|].
    destruct (String.eqb_spec (document_title st) (getExpectedTitle path));
      [contradiction | reflexivity]. }
  assert (Hno : ~ triggers -> handleInitialLoad env st = (Normal tt, st)).
  { intros Hn. unfold handleInitialLoad, getCurrentPath. fold path.
    destruct (String.eqb_spec path "/"); [reflexivity|].
    destruct (JS.includes ".html" path) eqn:E1; [reflexivity|].
    destruct (JS.includes "#" path) eqn:E2; [reflexivity|].
    destruct (String.eqb_spec (document_title st) (getExpectedTitle path));
      [reflexivity|].
    exfalso. apply Hn. unfold triggers. tauto. }
  assert (Hgrow : forall l (x : string), (l ++ [x])%list <> l).
  { intros l x H. apply (f_equal (@List.length string)) in H.
    rewrite List.length_app in H. simpl in H. lia. }
  split; [exact Hyes|]. split; [exact Hno|]. split; [|split; [|split]].
  - split.
    + intros H. destruct Hdec as [Ht|Hn]; [exact Ht|].
      rewrite (Hno Hn) in H. cbn in H. symmetry in H. apply Hgrow in H. contradiction.
    + intros Ht. rewrite (Hyes Ht). apply loadContent_requests.
  - split.
    + intros H Ht. rewrite (Hyes Ht), loadContent_requests in H.
      apply Hgrow in H. exact H.
    + intros Hn. rewrite (Hno Hn). reflexivity.
  - destruct Hdec as [Ht|Hn].
    + rewrite (Hyes Ht). apply loadContent_no_push.
    + rewrite (Hno Hn). reflexivity.
  - split; [vm_compute; reflexivity|]. split; [|split; [|split; [|split]]].
    + apply leibniz_equiv. unfold titleMap. rewrite !dom_insert, dom_empty.
      set_solver.
    + intros p t H. unfold getExpectedTitle. rewrite H. cbn.
      rewrite (titleMap_lookup p t H). reflexivity.
    + intros p H. unfold getExpectedTitle. rewrite H. reflexivity.
    + vm_compute; reflexivity.
    + vm_compute; reflexivity.
Qed.

(** ** History *)

(** A [try] block that completes with a history update has pushed the entry
    of the path as the last thing it did to the history. *)
Lemma loadContent_try_pushes (env : Platform) path st st1 :
  loadContent_try env path true (pathToHtmlFile path) st = (Normal tt, st1) ->
  pushed st1
  = (pushed st ++ [mkHistoryEntry path (baseUrl (ROUTER_CONFIG env) +:+ path)])%list.
Proof.
  unfold loadContent_try. intros H.
  apply bind_Normal_inv in H as ([] & s1 & H1 & H).
  apply bind_Normal_inv in H as (body & s2 & H2 & H).
  apply bind_Normal_inv in H as (html & s3 & H3 & H).
  apply bind_Normal_inv in H as (container & s4 & H4 & H).
  apply bind_Normal_inv in H as ([] & s5 & H5 & H).
  apply bind_Normal_inv in H as ([] & s6 & H6 & H).
  apply bind_Normal_inv in H as ([] & s7 & H7 & H).
  apply bind_Normal_inv in H as ([] & s8 & H8 & H).
  apply bind_Normal_inv in H as ([] & s9 & H9 & H).
  assert (P1 : pushed s1 = pushed st) by (frame_of pushed H1; preserves_tac).
  assert (P2 : pushed s2 = pushed s1)
    by (frame_of pushed H2; unfold fetchOk; preserves_tac).
  assert (P3 : pushed s3 = pushed s2) by (frame_of pushed H3; preserves_tac).
  assert (P4 : pushed s4 = pushed s3) by (frame_of pushed H4; preserves_tac).
  assert (P5 : pushed s5 = pushed s4)
    by (frame_of pushed H5; unfold update_element; preserves_tac).
  assert (P6 : pushed s6 = pushed s5) by (frame_of pushed H6; preserves_tac).
  assert (P7 : pushed s7 = pushed s6) by (frame_of pushed H7; preserves_tac).
  assert (P8 : pushed s8 = pushed s7)
    by (frame_of pushed H8; apply updateMetaTags_preserves; reflexivity).
  assert (P9 : pushed s9
    = (pushed s8 ++ [mkHistoryEntry path (baseUrl (ROUTER_CONFIG env) +:+ path)])%list).
  { revert H9. cbn [when]. unfold pushState.
    destruct (newURL env _) as [u|]; [|discriminate].
    destruct (url_origin u =? location_origin env)%string; [|discriminate].
    intros H9. injection H9 as <-. reflexivity. }
  assert (P10 : pushed st1 = pushed s9)
    by (frame_of pushed H; apply reinitializeScripts_preserves; reflexivity).
  congruence.
Qed.

(** C8, as the code has it: a load of a non-empty path that succeeds with
    the history update pushes the entry whose state is the path and whose URL
    is the base URL followed by the path; a [popstate] event with the state
    of that entry runs the loader for the same path without a history
    update: one request for the mapped file, nothing pushed. *)
Theorem push_popstate_roundtrip (env : Platform) (path : string) (st : State) :
  path <> "" ->
  loadSucceeds env path true st = true ->
  let st' := snd (loadContent env path true st) in
  pushed st'
    = (pushed st ++ [mkHistoryEntry path (baseUrl (ROUTER_CONFIG env) +:+ path)])%list
  /\ baseUrl (ROUTER_CONFIG env) = location_origin env
  /\ location_href st' = location_href st
  /\ (forall entry, last (pushed st') = Some entry ->
        state_path entry = path
        /\ entry_url entry = location_origin env +:+ path
        /\ forall st2,
             onPopState env (Some (state_path entry)) st2
               = loadContent env path false st2
             /\ requests (snd (onPopState env (Some (state_path entry)) st2))
                = (requests st2 ++ [pathToHtmlFile path])%list
             /\ pushed (snd (onPopState env (Some (state_path entry)) st2))
                = pushed st2).
Proof.
  intros Hne Hok. cbv zeta.
  unfold loadSucceeds in Hok.
  destruct (loadContent_try env path true (pathToHtmlFile path) st)
    as [[[]|e] st1] eqn:Htry; [|discriminate].
  assert (Hp : pushed (snd (loadContent env path true st))
    = (pushed st ++ [mkHistoryEntry path (baseUrl (ROUTER_CONFIG env) +:+ path)])%list).
  { unfold loadContent.
    rewrite (tryCatchFinally_body pushed); [|intros e; preserves_tac|preserves_tac].
    rewrite Htry. apply (loadContent_try_pushes env path st st1 Htry). }
  split; [exact Hp|]. split; [reflexivity|]. split.
  - unfold loadContent, tryCatchFinally. rewrite Htry. cbn.
    frame_of location_href Htry.
    unfold loadContent_try, fetchOk, updateMetaTags, update_element, pushState,
      reinitializeScripts.
    preserves_tac.
  - intros entry Hlast. rewrite Hp, last_snoc in Hlast. injection Hlast as <-.
    cbn [state_path entry_url baseUrl ROUTER_CONFIG].
    split; [reflexivity|]. split; [reflexivity|].
    intros st2.
    assert (Hpop : onPopState env (Some path) st2 = loadContent env path false st2).
    { unfold onPopState. destruct path; [contradiction | reflexivity]. }
    rewrite Hpop. split; [reflexivity|]. split.
    + apply loadContent_requests.
    + apply loadContent_no_push.
Qed.

(** C8 at the donate page of the sample platform. *)
Lemma push_popstate_roundtrip_donate :
  "/donate" <> ""
  /\ loadSucceeds Demo.env "/donate" true Demo.home = true
  /\ pushed (snd (loadContent Demo.env "/donate" true Demo.home))
     = [mkHistoryEntry "/donate" "https://gift.example/donate"].
Proof.
  split; [discriminate|]. split; [vm_compute; reflexivity|].
  refine (proj1 (push_popstate_roundtrip Demo.env "/donate" Demo.home _ _)).
  - discriminate.
  - vm_compute; reflexivity.
Defined.

(** C8, where the claim as worded fails: the load of the empty path succeeds
    and pushes an entry whose state holds the empty path, and the [popstate]
    listener takes that state for none: the loader is not run. *)
Lemma popstate_empty_path_ignored :
  let st' := snd (loadContent Demo.env "" true Demo.home) in
  loadSucceeds Demo.env "" true Demo.home = true
  /\ pushed st' = [mkHistoryEntry "" "https://gift.example"]
  /\ onPopState Demo.env (Some "") st' = (Normal tt, st')
  /\ requests (snd (onPopState Demo.env (Some "") st')) = requests st'
  /\ requests st' = ["index.html"].
Proof. cbv zeta. repeat split; vm_compute; reflexivity. Qed.

(** ** URL to path *)

(** C9: when the URL constructor rejects the string, [getPathFromUrl] returns
    the string itself; when it accepts it, the path component.  With the
    stand-in parser a relative href is rejected and an absolute URL gives its
    path. *)
Theorem getPathFromUrl_fallback (env : Platform) (url : string) :
  (newURL env url = None -> getPathFromUrl env url = url)
  /\ (forall urlObj, newURL env url = Some urlObj ->
                     getPathFromUrl env url = pathname urlObj)
  /\ newURL Demo.env "donate.html" = None
  /\ getPathFromUrl Demo.env "donate.html" = "donate.html"
  /\ getPathFromUrl Demo.env "/get-involved" = "/get-involved"
  /\ getPathFromUrl Demo.env "https://gift.example/donate?ref=x" = "/donate".
Proof.
  unfold getPathFromUrl. split; [|split].
  - intros ->. reflexivity.
  - intros urlObj ->. reflexivity.
  - repeat split.
Qed.

(** ** The recorded path after a failed navigation *)

(** C10: a navigation to a new path records the path and then runs the
    loader from the state that already holds it; the loader never writes the
    recorded path, so after a load that failed the recorded path is the
    target that failed, not the previous one, while the location is assigned
    the mapped file. *)
Theorem navigate_keeps_failed_target (env : Platform) (path : string) (st : State) :
  path <> currentPath st ->
  let st' := snd (navigate env path st) in
  navigate env path st = loadContent env path true (with_currentPath path st)
  /\ currentPath (with_currentPath path st) = path
  /\ requests st' = (requests st ++ [pathToHtmlFile path])%list
  /\ currentPath st' = path
  /\ (loadSucceeds env path true (with_currentPath path st) = false ->
      currentPath st' = path
      /\ currentPath st' <> currentPath st
      /\ location_href st' = Some (pathToHtmlFile path)).
Proof.
  intros Hne. cbv zeta. rewrite (navigate_other_path env path st Hne).
  split; [reflexivity|]. split; [reflexivity|]. split; [|split].
  - rewrite loadContent_requests. reflexivity.
  - rewrite loadContent_currentPath. reflexivity.
  - intros Hfail. rewrite loadContent_currentPath. cbn [currentPath with_currentPath].
    split; [reflexivity|]. split; [exact Hne|].
    unfold loadSucceeds in Hfail.
    destruct (loadContent_try env path true (pathToHtmlFile path) (with_currentPath path st))
      as [[[]|e] st1] eqn:Htry; [discriminate|].
    apply (loadContent_failed _ _ _ _ _ _ Htry).
Qed.

(** C10 at a page the sample server does not have. *)
Lemma navigate_keeps_failed_target_volunteer :
  "/volunteer" <> currentPath Demo.home
  /\ loadSucceeds Demo.env "/volunteer" true (with_currentPath "/volunteer" Demo.home)
     = false
  /\ currentPath (snd (navigate Demo.env "/volunteer" Demo.home)) = "/volunteer".
Proof.
  split; [discriminate|]. split; [vm_compute; reflexivity|].
  refine (proj1 (proj2 (proj2 (proj2
    (navigate_keeps_failed_target Demo.env "/volunteer" Demo.home _))))).
  discriminate.
Defined.


(** * Further properties of the router *)

(** ** More on the path to file mapping *)

Lemma noQueryOrFragmentMark_append (a b : string) :
  noQueryOrFragmentMark (a +:+ b)
  = noQueryOrFragmentMark a && noQueryOrFragmentMark b.
Proof.
  induction a as [|c a IH]; [reflexivity|].
  rewrite append_cons. cbn [noQueryOrFragmentMark]. rewrite IH.
  apply andb_assoc.
Qed.

Lemma splitFirst_append (base suffix : string) :
  noQueryOrFragmentMark base = true -> isQueryOrFragmentSuffix suffix = true ->
  JS.splitFirst (base +:+ suffix) = base.
Proof.
  intros Hb Hs. induction base as [|c base IH].
  - destruct suffix as [|c s]; [reflexivity|].
    change (JS.splitFirst (String c s) = "").
    cbn [isQueryOrFragmentSuffix] in Hs. cbn [JS.splitFirst]. rewrite Hs. reflexivity.
  - rewrite append_cons. cbn [noQueryOrFragmentMark] in Hb. cbn [JS.splitFirst].
    apply andb_prop in Hb as [Hc Hb]. apply negb_true_iff in Hc.
    rewrite Hc, (IH Hb). reflexivity.
Qed.

(** The file the loader requests is always an [.html] file name without a
    query or fragment mark, whatever the path holds. *)
Theorem pathToHtmlFile_plain_html_file (path : string) :
  noQueryOrFragmentMark (pathToHtmlFile path) = true
  /\ exists base, pathToHtmlFile path = base +:+ ".html"
                  /\ noQueryOrFragmentMark base = true.
Proof.
  unfold pathToHtmlFile.
  set (cleanPath := if JS.startsWith "/" path then JS.slice 1 path else path).
  destruct ((cleanPath =? "")%string || (cleanPath =? "/")%string).
  - split; [reflexivity|]. exists "index". split; reflexivity.
  - destruct (splitFirst_decompose cleanPath) as (suffix & _ & Hno & _).
    split.
    + rewrite noQueryOrFragmentMark_append, Hno. reflexivity.
    + exists (JS.splitFirst cleanPath). split; [reflexivity | exact Hno].
Qed.

(** A page name free of [?] and [#], other than the empty name and [/], maps
    to the same file with or without the leading slash and whatever query or
    fragment follows it. *)
Theorem pathToHtmlFile_slug (slug suffix : string) :
  noQueryOrFragmentMark slug = true ->
  slug <> "" -> JS.startsWith "/" slug = false ->
  isQueryOrFragmentSuffix suffix = true ->
  pathToHtmlFile ("/" +:+ slug +:+ suffix) = slug +:+ ".html"
  /\ pathToHtmlFile (slug +:+ suffix) = slug +:+ ".html".
Proof.
  intros Hno Hne Hslash Hsuf.
  assert (Hclean : forall p,
    (if JS.startsWith "/" p then JS.slice 1 p else p) = slug +:+ suffix ->
    pathToHtmlFile p = slug +:+ ".html").
  { intros p Hp. unfold pathToHtmlFile. rewrite Hp.
    destruct slug as [|c slug]; [contradiction|].
    rewrite append_cons.
    assert (H1 : (String c (slug +:+ suffix) =? "")%string = false) by reflexivity.
    assert (H2 : (String c (slug +:+ suffix) =? "/")%string = false).
    { apply String.eqb_neq. intros H. injection H as -> _.
      cbn in Hslash. discriminate. }
    rewrite H1, H2. cbn [orb]. rewrite <- append_cons.
    rewrite (splitFirst_append _ _ Hno Hsuf). reflexivity. }
  split; apply Hclean.
  - reflexivity.
  - destruct slug as [|c slug]; [contradiction|].
    rewrite append_cons.
    change (JS.startsWith "/" (String c (slug +:+ suffix)))
      with (JS.startsWith "/" (String c slug)).
    rewrite Hslash. reflexivity.
Qed.

Lemma pathToHtmlFile_slug_get_involved :
  pathToHtmlFile ("/" +:+ "get-involved" +:+ "?ref=x#team") = "get-involved" +:+ ".html"
  /\ pathToHtmlFile ("get-involved" +:+ "?ref=x#team") = "get-involved" +:+ ".html".
Proof.
  apply (pathToHtmlFile_slug "get-involved" "?ref=x#team");
    [reflexivity | discriminate | reflexivity | reflexivity].
Defined.

(** The root path followed by a query or a fragment is not taken for the
    root: its remainder is not empty, the part before the mark is, and the
    file requested is [.html]. *)
Theorem pathToHtmlFile_root_with_suffix (suffix : string) :
  suffix <> "" -> isQueryOrFragmentSuffix suffix = true ->
  pathToHtmlFile ("/" +:+ suffix) = ".html"
  /\ pathToHtmlFile suffix = ".html".
Proof.
  intros Hne Hsuf. destruct suffix as [|c s]; [contradiction|].
  cbn in Hsuf. unfold JS.isQueryOrFragmentMark in Hsuf.
  apply orb_prop in Hsuf as [H|H]; apply Ascii.eqb_eq in H; subst c;
    split; unfold pathToHtmlFile; cbn; reflexivity.
Qed.

Lemma pathToHtmlFile_root_with_query :
  pathToHtmlFile ("/" +:+ "?ref=x") = ".html" /\ pathToHtmlFile "?ref=x" = ".html".
Proof.
  apply (pathToHtmlFile_root_with_suffix "?ref=x"); [discriminate | reflexivity].
Defined.

(** ** More on link classification and the click listener *)

Lemma includes_append (p t : string) : JS.includes p (p +:+ t) = true.
Proof. apply includes_here, startsWith_append. Qed.

(** On a page served over http(s), every [href] that begins with the page's
    origin is classified by its [target] alone: it is internal unless the
    target is [_blank], whatever follows the origin in the [href]. *)
Theorem isInternalLink_origin_prefix (env : Platform) (link : Element) (rest : string) :
  JS.startsWith "http" (location_origin env) = true ->
  getAttribute "href" link = Some (location_origin env +:+ rest) ->
  isInternalLink env link
  = negb (bool_decide (getAttribute "target" link = Some "_blank")).
Proof.
  intros Hhttp Hhref. unfold isInternalLink. rewrite Hhref.
  rewrite includes_append.
  destruct (startsWith_inv _ _ Hhttp) as [t ->].
  rewrite append_assoc. cbn.
  destruct (bool_decide _); reflexivity.
Qed.

Lemma isInternalLink_origin_prefix_sample :
  JS.startsWith "http" (location_origin Demo.env) = true
  /\ getAttribute "href" (Demo.anchor "https://gift.example.org/x" "https://gift.example.org/x" None)
     = Some (location_origin Demo.env +:+ ".org/x")
  /\ isInternalLink Demo.env
       (Demo.anchor "https://gift.example.org/x" "https://gift.example.org/x" None)
     = true.
Proof.
  split; [reflexivity|]. split; [vm_compute; reflexivity|].
  refine (eq_trans (isInternalLink_origin_prefix Demo.env _ ".org/x" _ _) _);
    [reflexivity | vm_compute; reflexivity | vm_compute; reflexivity].
Defined.

(** A click outside any anchor, or on an anchor that is not internal, is left
    to the browser: the default action is not prevented and nothing changes. *)
Theorem onClick_leaves_other_clicks (env : Platform) (link : option Element) (st : State) :
  (forall l, link = Some l -> isInternalLink env l = false) ->
  onClick env link st = (Normal false, st).
Proof.
  intros H. unfold onClick. destruct link as [l|]; [|reflexivity].
  rewrite (H l eq_refl). reflexivity.
Qed.

Lemma onClick_leaves_fragment_link :
  (forall l, Some (Demo.anchor "#section" "https://gift.example/#section" None) = Some l ->
             isInternalLink Demo.env l = false)
  /\ onClick Demo.env (Some (Demo.anchor "#section" "https://gift.example/#section" None))
       Demo.home = (Normal false, Demo.home).
Proof.
  assert (H : forall l,
    Some (Demo.anchor "#section" "https://gift.example/#section" None) = Some l ->
    isInternalLink Demo.env l = false).
  { intros l Hl. injection Hl as <-. vm_compute. reflexivity. }
  split; [exact H|].
  exact (onClick_leaves_other_clicks Demo.env _ Demo.home H).
Defined.

(** A click on an internal anchor always prevents the default action and
    leaves the path of the anchor's resolved URL as the recorded path; it
    issues one request, for the file of that path, unless the path is the
    recorded one already, in which case the state is untouched. *)
Theorem onClick_internal (env : Platform) (l : Element) (st : State) :
  isInternalLink env l = true ->
  let path := getPathFromUrl env (href l) in
  let r := onClick env (Some l) st in
  fst r = Normal true
  /\ currentPath (snd r) = path
  /\ requests (snd r)
     = (if (path =? currentPath st)%string then requests st
        else requests st ++ [pathToHtmlFile path])%list
  /\ (path = currentPath st -> snd r = st).
Proof.
  intros Hint. cbv zeta. unfold onClick. rewrite Hint.
  set (path := getPathFromUrl env (href l)).
  unfold bind. unfold navigate.
  destruct (String.eqb_spec path (currentPath st)) as [Heq|Hne].
  - cbn. repeat split; congruence.
  - unfold bind. cbn [modify].
    pose proof (loadContent_completes env path true (with_currentPath path st)) as Hc.
    pose proof (loadContent_currentPath env path true (with_currentPath path st)) as Hp.
    pose proof (loadContent_requests env path true (with_currentPath path st)) as Hr.
    destruct (loadContent env path true (with_currentPath path st)) as [r st1].
    cbn in Hc, Hp, Hr. subst r. cbn. repeat split; try assumption.
    intros Heq. contradiction.
Qed.

Lemma onClick_internal_mission :
  isInternalLink Demo.env (Demo.anchor "/mission" "https://gift.example/mission" None) = true
  /\ fst (onClick Demo.env
            (Some (Demo.anchor "/mission" "https://gift.example/mission" None)) Demo.home)
     = Normal true.
Proof.
  split; [vm_compute; reflexivity|].
  refine (proj1 (onClick_internal Demo.env
    (Demo.anchor "/mission" "https://gift.example/mission" None) Demo.home _)).
  vm_compute; reflexivity.
Defined.

(** ** More on the popstate listener *)

(** The [popstate] listener never rejects, never writes the recorded path
    and never pushes a history entry; with a null state or an empty path it
    does nothing at all. *)
Theorem onPopState_keeps_recorded_path (env : Platform) (state : option string)
    (st : State) :
  fst (onPopState env state st) = Normal tt
  /\ currentPath (snd (onPopState env state st)) = currentPath st
  /\ pushed (snd (onPopState env state st)) = pushed st
  /\ (state = None \/ state = Some "" -> onPopState env state st = (Normal tt, st)).
Proof.
  unfold onPopState. destruct state as [[|c p]|]; cbn [JS.truthy].
  - repeat split.
  - split; [apply loadContent_completes|].
    split; [apply loadContent_currentPath|].
    split; [apply loadContent_no_push|].
    intros [H|H]; discriminate.
  - repeat split.
Qed.

(** After a navigation to a new path, a history event does not bring the
    recorded path back: it loads the page of its state (one more request)
    and the recorded path stays the navigation's target, so that navigating
    to that target again does nothing. *)
Theorem navigate_after_popstate_ignored (env : Platform) (path : string)
    (state : option string) (st : State) :
  path <> currentPath st ->
  let st1 := snd (navigate env path st) in
  let st2 := snd (onPopState env state st1) in
  currentPath st2 = path
  /\ navigate env path st2 = (Normal tt, st2)
  /\ (forall back, state = Some back -> back <> "" ->
        requests st2
        = (requests st ++ [pathToHtmlFile path; pathToHtmlFile back])%list).
Proof.
  intros Hne. cbv zeta.
  destruct (onPopState_keeps_recorded_path env state (snd (navigate env path st)))
    as (_ & Hcur & _ & _).
  assert (Hnav : currentPath (snd (navigate env path st)) = path).
  { rewrite (navigate_other_path env path st Hne), loadContent_currentPath.
    reflexivity. }
  assert (H2 : currentPath (snd (onPopState env state (snd (navigate env path st)))) = path)
    by congruence.
  split; [exact H2|]. split.
  - unfold navigate at 1. rewrite H2, String.eqb_refl. reflexivity.
  - intros back -> Hback. unfold onPopState.
    destruct back as [|c back]; [contradiction|]. cbn [JS.truthy].
    rewrite loadContent_requests, (navigate_other_path env path st Hne),
      loadContent_requests.
    cbn [requests with_currentPath]. rewrite <- app_assoc. reflexivity.
Qed.

Lemma navigate_after_popstate_ignored_donate :
  "/donate" <> currentPath Demo.home
  /\ navigate Demo.env "/donate"
       (snd (onPopState Demo.env (Some "/") (snd (navigate Demo.env "/donate" Demo.home))))
     = (Normal tt,
        snd (onPopState Demo.env (Some "/") (snd (navigate Demo.env "/donate" Demo.home)))).
Proof.
  split; [discriminate|].
  refine (proj1 (proj2 (navigate_after_popstate_ignored Demo.env "/donate" (Some "/")
    Demo.home _))).
  discriminate.
Defined.

(** ** More on the content loader *)




(** When the page text does not arrive (the request fails, the response is
    not a success, or its body cannot be read), the page is left as it was:
    elements, title, scroll position, history and plugins are untouched; the
    load has issued its one request, logged one error and assigned the mapped
    file to the location. *)
Theorem loadContent_failed_fetch_leaves_page (env : Platform) (path : string)
    (updateHistory : bool) (st : State) :
  (fetch env (pathToHtmlFile path) = NetworkError
   \/ (exists status body, fetch env (pathToHtmlFile path) = Response status body
                           /\ ok status = false)
   \/ (exists status, fetch env (pathToHtmlFile path) = Response status None)) ->
  let st' := snd (loadContent env path updateHistory st) in
  document_elements st' = document_elements st
  /\ document_title st' = document_title st
  /\ scroll_position st' = scroll_position st
  /\ pushed st' = pushed st
  /\ location_pathname st' = location_pathname st
  /\ plugin_calls st' = plugin_calls st
  /\ requests st' = (requests st ++ [pathToHtmlFile path])%list
  /\ location_href st' = Some (pathToHtmlFile path)
  /\ exists e, console st' = (console st ++ [e])%list.
Proof.
  intros H. cbv zeta.
  unfold loadContent, tryCatchFinally, loadContent_try, fetchOk, bind, modify.
  destruct H as [Hf|[(status & body & Hf & Hok)|(status & Hf)]]; rewrite Hf.
  - cbn. repeat split. eexists. reflexivity.
  - rewrite Hok. cbn. repeat split. eexists. reflexivity.
  - destruct (ok status); cbn; repeat split; eexists; reflexivity.
Qed.

Lemma loadContent_failed_fetch_leaves_page_volunteer :
  (fetch Demo.env (pathToHtmlFile "/volunteer") = NetworkError
   \/ (exists status body,
         fetch Demo.env (pathToHtmlFile "/volunteer") = Response status body
         /\ ok status = false)
   \/ (exists status, fetch Demo.env (pathToHtmlFile "/volunteer") = Response status None))
  /\ document_elements (snd (loadContent Demo.env "/volunteer" true Demo.home))
     = document_elements Demo.home.
Proof.
  assert (H : fetch Demo.env (pathToHtmlFile "/volunteer") = NetworkError
   \/ (exists status body,
         fetch Demo.env (pathToHtmlFile "/volunteer") = Response status body
         /\ ok status = false)
   \/ (exists status, fetch Demo.env (pathToHtmlFile "/volunteer") = Response status None)).
  { right. left. exists 404, (Some "Not Found"). split; reflexivity. }
  split; [exact H|].
  exact (proj1 (loadContent_failed_fetch_leaves_page Demo.env "/volunteer" true
                  Demo.home H)).
Defined.

(** The [try] block writes neither the console nor the location. *)
Lemma loadContent_try_console_location (env : Platform) path updateHistory file :
  preserves (fun st => (console st, location_href st))
    (loadContent_try env path updateHistory file).
Proof.
  unfold loadContent_try, fetchOk, updateMetaTags, update_element, pushState,
    reinitializeScripts.
  preserves_tac.
Qed.

(** The fall-back to a full navigation and the console tell whether the load
    went through: a load whose [try] block completes assigns no location and
    logs nothing; a load whose [try] block throws assigns the mapped file and
    logs the one exception. *)
Theorem loadContent_fallback_iff_failure (env : Platform) (path : string)
    (updateHistory : bool) (st : State) :
  let st' := snd (loadContent env path updateHistory st) in
  (loadSucceeds env path updateHistory st = true ->
   location_href st' = location_href st /\ console st' = console st)
  /\ (loadSucceeds env path updateHistory st = false ->
      location_href st' = Some (pathToHtmlFile path)
      /\ exists e, console st' = (console st ++ [e])%list).
Proof.
  cbv zeta. unfold loadSucceeds.
  pose proof (loadContent_try_console_location env path updateHistory
                (pathToHtmlFile path) st) as Hfr.
  destruct (loadContent_try env path updateHistory (pathToHtmlFile path) st)
    as [[[]|e] st1] eqn:Htry; cbn [snd] in Hfr; injection Hfr as Hc Hl.
  - split; [|discriminate]. intros _.
    unfold loadContent, tryCatchFinally. rewrite Htry. cbn. split; assumption.
  - split; [discriminate|]. intros _.
    destruct (loadContent_failed env path updateHistory st e st1 Htry) as [H1 H2].
    split; [exact H1|]. exists e. rewrite H2, Hc. reflexivity.
Qed.

(** The loader returns the body's class list without the loading class and
    otherwise as it found it. *)
Theorem loadContent_class_list (env : Platform) (path : string) (updateHistory : bool)
    (st : State) :
  body_classList (snd (loadContent env path updateHistory st))
  = body_classList st ∖ {[ loadingClass (ROUTER_CONFIG env) ]}.
Proof.
  assert (Htry : body_classList
      (snd (loadContent_try env path updateHistory (pathToHtmlFile path) st))
    = {[ loadingClass (ROUTER_CONFIG env) ]} ∪ body_classList st).
  { unfold loadContent_try. unfold bind at 1. cbn [modify].
    match goal with
    | |- body_classList (snd (?c ?s)) = _ =>
        assert (Hrest : preserves body_classList c)
    end.
    { unfold fetchOk, updateMetaTags, update_element, pushState, reinitializeScripts.
      preserves_tac. }
    rewrite Hrest. reflexivity. }
  unfold loadContent, tryCatchFinally.
  destruct (loadContent_try env path updateHistory (pathToHtmlFile path) st)
    as [[[]|e] st1]; cbn in Htry |- *; rewrite Htry;
    apply set_eq; intros x; rewrite !elem_of_difference, elem_of_union; tauto.
Qed.

(** ** The elements of the page *)

(** The selectors that find an element in the live document. *)
Local Abbreviation selectable st := (dom (document_elements st)).





(** ** The plugin hooks *)

(** [reinitializeScripts] throws in one situation only, a registered
    [dropotron] plugin with the global [browser] undeclared, and then with a
    [ReferenceError], after the [scrolly] call if that plugin is registered;
    without the global [$] it does nothing. *)
Theorem reinitializeScripts_outcome (env : Platform) (st : State) :
  let r := reinitializeScripts env st in
  (jQuery env = None -> r = (Normal tt, st))
  /\ (fst r = Normal tt \/ fst r = Throw ReferenceError)
  /\ (fst r = Throw ReferenceError <->
      exists jq, jQuery env = Some jq /\ fn_dropotron jq = true /\ browser env = None)
  /\ (forall jq, jQuery env = Some jq -> fn_scrolly jq = true ->
        exists calls, plugin_calls (snd r) = (plugin_calls st ++ Scrolly :: calls)%list)
  /\ (forall jq, jQuery env = Some jq -> fn_scrolly jq = false ->
        fn_dropotron jq = false -> snd r = st).
Proof.
  cbv zeta. unfold reinitializeScripts, bind, when, modify, ret, throw.
  destruct (jQuery env) as [[scrolly dropotron]|]; cbn [fn_scrolly fn_dropotron].
  - split; [discriminate|].
    destruct scrolly, dropotron, (browser env) as [mobile|]; cbn;
      (split; [auto|]); (split; [split;
        [intros H; try discriminate H; eexists; repeat split
        |intros (jq & Hjq & Hd & Hb); injection Hjq as <-; cbn in Hd;
         try discriminate; reflexivity]|]);
      (split; [intros jq Hjq Hs; injection Hjq as <-; try discriminate Hs;
               eexists; cbn; rewrite <- ?app_assoc; reflexivity
              |intros jq Hjq Hs Hd; injection Hjq as <-; cbn in Hs, Hd;
               try discriminate; destruct st; reflexivity]).
  - split; [reflexivity|]. split; [left; reflexivity|]. split.
    + split; [discriminate|]. intros (jq & Hjq & _). discriminate.
    + split; intros jq Hjq; discriminate.
Qed.




(** ** Start-up *)

Lemma loadContent_keeps_pathname (env : Platform) (path : string) :
  preserves location_pathname (loadContent env path false).
Proof.
  unfold loadContent, loadContent_try, fetchOk, updateMetaTags,
    reinitializeScripts, update_element.
  cbn [when]. preserves_tac.
Qed.

Lemma handleInitialLoad_frame (env : Platform) (st : State) :
  currentPath (snd (handleInitialLoad env st)) = currentPath st
  /\ location_pathname (snd (handleInitialLoad env st)) = location_pathname st.
Proof.
  unfold handleInitialLoad.
  destruct (negb _ && negb _ && negb _); [|split; reflexivity].
  destruct (negb _); [|split; reflexivity].
  split; [apply loadContent_currentPath | apply loadContent_keeps_pathname].
Qed.

(** A new router is initialized, has bound its two listeners once, and
    records the path the location shows, also when the initial load ran;
    calling [init] on any router that went through [init] changes nothing, so
    no listener is bound twice and no second initial load is made. *)
Theorem newRouter_startup (env : Platform) (window : State) :
  let r := newRouter env window in
  isInitialized r = true
  /\ listeners r = ["click"; "popstate"]
  /\ currentPath (router_state r) = location_pathname window
  /\ location_pathname (router_state r) = location_pathname window
  /\ init env r = r
  /\ (forall r0, init env (init env r0) = init env r0)
  /\ (forall r0, isInitialized r0 = false ->
        listeners (init env r0) = (listeners r0 ++ ["click"; "popstate"])%list
        /\ requests (router_state (init env r0))
           = requests (snd (handleInitialLoad env (router_state r0)))).
Proof.
  cbv zeta.
  assert (Hidem : forall r0, init env (init env r0) = init env r0).
  { intros r0.
    assert (Hi : isInitialized (init env r0) = true).
    { unfold init. destruct (isInitialized r0) eqn:E; [exact E | reflexivity]. }
    unfold init at 1. rewrite Hi. reflexivity. }
  unfold newRouter.
  split; [reflexivity|]. split; [reflexivity|].
  destruct (handleInitialLoad_frame env
              (with_currentPath (getCurrentPath window) window)) as [Hc Hp].
  split; [exact Hc|]. split; [exact Hp|].
  split; [apply Hidem|]. split; [exact Hidem|].
  intros r0 Hi. unfold init. rewrite Hi. split; reflexivity.
Qed.

(** ** History entries per load *)

(** A load pushes at most one history entry, and only the entry of its own
    path under the base URL: the log of pushed entries is afterwards what it
    was, or that with this one entry appended; without a history update it
    is what it was. *)
Theorem loadContent_pushes_at_most_once (env : Platform) (path : string)
    (updateHistory : bool) (st : State) :
  let st' := snd (loadContent env path updateHistory st) in
  let entry := mkHistoryEntry path (location_origin env +:+ path) in
  (pushed st' = pushed st \/ pushed st' = (pushed st ++ [entry])%list)
  /\ (updateHistory = false -> pushed st' = pushed st)
  /\ (loadSucceeds env path updateHistory st = true -> updateHistory = true ->
      pushed st' = (pushed st ++ [entry])%list).
Proof.
  cbv zeta.
  set (entry := mkHistoryEntry path (location_origin env +:+ path)).
  set (R := fun (s s' : State) =>
              pushed s' = pushed s \/ pushed s' = (pushed s ++ [entry])%list).
  assert (Hstep : forall A B (c : Eff A) (k : A -> Eff B),
    preserves pushed c -> (forall a s, R s (snd (k a s))) ->
    forall s, R s (snd (bind c k s))).
  { intros A B c k Hc Hk s. unfold bind. specialize (Hc s).
    destruct (c s) as [[a|e] s1]; cbn [snd] in *.
    - specialize (Hk a s1). unfold R in *. rewrite Hc in Hk. exact Hk.
    - left. exact Hc. }
  assert (Hframe : forall A (c : Eff A), preserves pushed c -> forall s, R s (snd (c s))).
  { intros A c Hc s. left. apply Hc. }
  assert (Hpush : forall s,
    R s (snd (bind (when updateHistory
                      (pushState env path (baseUrl (ROUTER_CONFIG env) +:+ path)))
                   (fun _ => reinitializeScripts env) s))).
  { intros s. unfold bind.
    destruct updateHistory; cbn [when].
    - unfold pushState.
      destruct (newURL env _) as [u|]; [|left; reflexivity].
      destruct (url_origin u =? location_origin env)%string; [|left; reflexivity].
      cbn [modify]. right.
      rewrite (reinitializeScripts_preserves env pushed (fun _ _ => eq_refl)).
      reflexivity.
    - cbn [ret]. left.
      apply (reinitializeScripts_preserves env pushed (fun _ _ => eq_refl)). }
  assert (Htry : forall s,
    R s (snd (loadContent_try env path updateHistory (pathToHtmlFile path) s))).
  { unfold loadContent_try.
    apply Hstep; [preserves_tac|intros _].
    apply Hstep; [unfold fetchOk; preserves_tac|intros body].
    apply Hstep; [preserves_tac|intros html].
    apply Hstep; [preserves_tac|intros container].
    apply Hstep; [unfold update_element; preserves_tac|intros _].
    apply Hstep; [preserves_tac|intros _].
    apply Hstep; [preserves_tac|intros _].
    apply Hstep; [apply updateMetaTags_preserves; reflexivity|intros _].
    exact Hpush. }
  assert (Hload : pushed (snd (loadContent env path updateHistory st))
    = pushed (snd (loadContent_try env path updateHistory (pathToHtmlFile path) st))).
  { unfold loadContent.
    apply (tryCatchFinally_body pushed); [intros e; preserves_tac|preserves_tac]. }
  split; [rewrite Hload; apply Htry|]. split.
  - intros ->. apply loadContent_no_push.
  - intros Hok ->. rewrite Hload. unfold loadSucceeds in Hok.
    destruct (loadContent_try env path true (pathToHtmlFile path) st)
      as [[[]|e] st1] eqn:H; [|discriminate].
    apply (loadContent_try_pushes env path st st1 H).
Qed.
